(** * iAndersChessApp: the engine wrapper of [Engines/stockfish.cpp]

    A shallow embedding of the C++ translation unit
    [iAndersChessApp/Engines/stockfish.cpp] and the properties its
    specification states about it.

    Conventions of the embedding:
    - a [const char*] argument or result is modelled by the characters it
      points to (a [string]); the functions never return a null pointer,
      they return [result_move.c_str()];
    - [int] is a [Z] inside the 32-bit range, [double] is a rational [Q]
      (the material sums are small integers, which doubles hold exactly);
    - the three globals [engine_initialized], [engine_options] and [rng]
      form the record [engine], threaded through every function;
    - a C++ exception is the [Throws] outcome of a computation. *)

From Stdlib Require Import ZArith QArith Lqa String Ascii List.
From stdpp Require Import base option gmap strings list.

Local Open Scope string_scope.
Local Open Scope Z_scope.

(** ** The parts of the C++ standard library the file uses *)

(** The two exceptions [std::stoi] can raise; both derive from
    [std::exception]. *)
Inductive exn : Type :=
| invalid_argument
| out_of_range.

Inductive outcome (A : Type) : Type :=
| Returns (a : A)
| Throws (e : exn).

Arguments Returns {A} a.
Arguments Throws {A} e.

Definition INT_MIN : Z := - 2 ^ 31.
Definition INT_MAX : Z := 2 ^ 31 - 1.

(** Signed 32-bit wrap-around, the result compilers give to an overflowing
    [int] subtraction. *)
Definition wrap_int (z : Z) : Z := (z + 2 ^ 31) mod 2 ^ 32 - 2 ^ 31.

Definition isspace (c : ascii) : bool :=
  let n := nat_of_ascii c in
  (n =? 32)%nat || ((9 <=? n)%nat && (n <=? 13)%nat).

Definition isdigit (c : ascii) : bool :=
  let n := nat_of_ascii c in
  (48 <=? n)%nat && (n <=? 57)%nat.

Definition digit_value (c : ascii) : Z := Z.of_nat (nat_of_ascii c) - 48.

Fixpoint skip_spaces (s : string) : string :=
  match s with
  | String c rest => if isspace c then skip_spaces rest else s
  | EmptyString => s
  end.

(** The value of the longest prefix of decimal digits, continuing [acc]. *)
Fixpoint digits_value (acc : Z) (s : string) : Z :=
  match s with
  | String c rest =>
      if isdigit c then digits_value (10 * acc + digit_value c) rest else acc
  | EmptyString => acc
  end.

Definition starts_with_digit (s : string) : bool :=
  match s with
  | String c _ => isdigit c
  | EmptyString => false
  end.

(** [std::stoi(s)] in base 10: leading white space, an optional sign, then
    the longest run of digits; what follows the digits is ignored.  No digit
    at all raises [std::invalid_argument], a value outside [int] raises
    [std::out_of_range]. *)
Definition stoi (s : string) : outcome Z :=
  let s1 := skip_spaces s in
  let '(negative, s2) :=
    match s1 with
    | String "-" rest => (true, rest)
    | String "+" rest => (false, rest)
    | _ => (false, s1)
    end in
  if starts_with_digit s2 then
    let magnitude := digits_value 0 s2 in
    let v := if negative then - magnitude else magnitude in
    if (INT_MIN <=? v) && (v <=? INT_MAX) then Returns v
    else Throws out_of_range
  else Throws invalid_argument.

(** [s.find(c)]: the first position of [c], [None] for [npos]. *)
Definition find_char (c : ascii) (s : string) : option nat :=
  index 0 (String c EmptyString) s.

(** [s.find(t) != npos] *)
Definition contains (t s : string) : bool :=
  match index 0 t s with
  | Some _ => true
  | None => false
  end.

(** [s.substr(0, count)], where a [count] of [npos] keeps the whole string. *)
Definition substr0 (s : string) (count : option nat) : string :=
  match count with
  | Some n => substring 0 n s
  | None => s
  end.

(** ** The random number generator

    [rng] is a [std::mt19937] seeded from [std::random_device]; the two
    distributions drawn from it are kept abstract: a draw returns a value
    inside the distribution's bounds and the generator's next state. *)
Record RandomSource : Type := {
  rng_state : Type;
  uniform_int_distribution : Z -> Z -> rng_state -> Z * rng_state;
  uniform_real_distribution : Q -> Q -> rng_state -> Q * rng_state;
  uniform_int_bounds : forall a b g,
    a <= b -> a <= fst (uniform_int_distribution a b g) <= b;
  uniform_real_bounds : forall a b g,
    (a < b)%Q ->
    (a <= fst (uniform_real_distribution a b g))%Q /\
    (fst (uniform_real_distribution a b g) < b)%Q
}.

(** ** The engine *)

Section Engine.

Context {R : RandomSource}.

(** The global engine state. *)
Record engine : Type := {
  engine_initialized : bool;
  engine_options : gmap string string;
  rng : rng_state R
}.

Definition set_options (st : engine) (opts : gmap string string) : engine :=
  {| engine_initialized := engine_initialized st;
     engine_options := opts;
     rng := rng st |}.

Definition set_rng (st : engine) (g : rng_state R) : engine :=
  {| engine_initialized := engine_initialized st;
     engine_options := engine_options st;
     rng := g |}.

(** The state of the process before any call. *)
Definition initial_engine (seed : rng_state R) : engine :=
  {| engine_initialized := false; engine_options := ∅; rng := seed |}.

(** Computations that read and write the globals and may throw. *)
Definition M (A : Type) : Type := engine -> outcome A * engine.

Definition ret {A} (a : A) : M A := fun st => (Returns a, st).

Definition bind {A B} (c : M A) (k : A -> M B) : M B :=
  fun st =>
    match c st with
    | (Returns a, st') => k a st'
    | (Throws e, st') => (Throws e, st')
    end.

Notation "'let*' x ':=' c 'in' k" := (bind c (fun x => k))
  (at level 10, x name, c at level 100, k at level 200).

(** A value of the standard library that may throw, as a computation. *)
Definition lift {A} (o : outcome A) : M A := fun st => (o, st).

(** [engine_options[key]]: [operator[]] of [std::map] inserts an empty
    string under a key that is absent. *)
Definition options_index (key : string) : M string :=
  fun st =>
    match engine_options st !! key with
    | Some v => (Returns v, st)
    | None => (Returns "", set_options st (<[key := ""]> (engine_options st)))
    end.

(** [dist(rng)] for the two distributions. *)
Definition draw_int (a b : Z) : M Z :=
  fun st =>
    let '(x, g) := uniform_int_distribution R a b (rng st) in
    (Returns x, set_rng st g).

Definition draw_real (a b : Q) : M Q :=
  fun st =>
    let '(x, g) := uniform_real_distribution R a b (rng st) in
    (Returns x, set_rng st g).

(** [void stockfish_init(void)] *)
Definition stockfish_init (st : engine) : engine :=
  if engine_initialized st then st
  else
    {| engine_initialized := true;
       engine_options :=
         <["Hash" := "128"]>
           (<["Threads" := "1"]>
              (<["Skill Level" := "20"]> (engine_options st)));
       rng := rng st |}.

(** [void stockfish_cleanup(void)] *)
Definition stockfish_cleanup (st : engine) : engine :=
  {| engine_initialized := false; engine_options := ∅; rng := rng st |}.

(** [void stockfish_set_option(const char* name, const char* value)] *)
Definition stockfish_set_option (name value : string) (st : engine) : engine :=
  if negb (engine_initialized st) then st
  else set_options st (<[name := value]> (engine_options st)).

(** [generate_legal_moves]: the argument is not read. *)
Definition generate_legal_moves (fen : string) : list string :=
  ["e2e4"; "d2d4"; "g1f3"; "b1c3"; "f1c4"].

(** One step of the [switch] in [evaluate_position_simple]. *)
Definition count_piece (evaluation : Q) (c : ascii) : Q :=
  match c with
  | "P"%char => evaluation + 1
  | "p"%char => evaluation - 1
  | "N"%char | "B"%char => evaluation + 3
  | "n"%char | "b"%char => evaluation - 3
  | "R"%char => evaluation + 5
  | "r"%char => evaluation - 5
  | "Q"%char => evaluation + 9
  | "q"%char => evaluation - 9
  | _ => evaluation
  end%Q.

(** [fen.substr(0, fen.find(' '))] *)
Definition board_part (fen : string) : string :=
  substr0 fen (find_char " " fen).

(** The loop over [board_part], starting from [0.0]. *)
Definition count_material (fen : string) : Q :=
  fold_left count_piece (list_ascii_of_string (board_part fen)) 0%Q.

(** [double evaluate_position_simple(const std::string& fen)] *)
Definition evaluate_position_simple (fen : string) : M Q :=
  let evaluation := count_material fen in
  let* s := options_index "Skill Level" in
  let* skill_level := lift (stoi s) in
  if skill_level <? 20 then
    let* x := draw_real (-1 # 2) (1 # 2) in
    ret (evaluation + x * inject_Z (wrap_int (20 - skill_level)) / 10)%Q
  else ret evaluation.

Definition is_center_move (move : string) : bool :=
  contains "e4" move || contains "d4" move ||
  contains "e5" move || contains "d5" move.

(** [moves[i]]; the index is always inside the vector (see
    [select_best_move_index_in_range]). *)
Definition at_index (moves : list string) (i : Z) : string :=
  nth (Z.to_nat i) moves "".

(** [std::string select_best_move(const std::vector<std::string>& moves,
    const std::string& fen)] *)
Definition select_best_move (moves : list string) (fen : string) : M string :=
  match moves with
  | [] => ret ""
  | first_move :: _ =>
      let* s := options_index "Skill Level" in
      let* skill_level := lift (stoi s) in
      if skill_level <=? 5 then
        let* i := draw_int 0 (Z.of_nat (length moves) - 1) in
        ret (at_index moves i)
      else if skill_level <=? 10 then
        match find is_center_move moves with
        | Some move => ret move
        | None => ret first_move
        end
      else ret first_move
  end.

(** The [try] block of [stockfish_get_best_move] once the move list is
    known, with its [catch]. *)
Definition best_move_among (legal_moves : list string) (fen : string)
  (st : engine) : string * engine :=
  match legal_moves with
  | [] => ("", st)
  | _ =>
      match select_best_move legal_moves fen st with
      | (Returns move, st') => (move, st')
      | (Throws _, st') => ("", st')
      end
  end.

(** [const char* stockfish_get_best_move(const char* fen, int depth,
    double time)] *)
Definition stockfish_get_best_move (fen : string) (depth : Z) (time : Q)
  (st : engine) : string * engine :=
  let st := if negb (engine_initialized st) then stockfish_init st else st in
  best_move_among (generate_legal_moves fen) fen st.

(** [double stockfish_evaluate_position(const char* fen)] *)
Definition stockfish_evaluate_position (fen : string) (st : engine)
  : Q * engine :=
  let st := if negb (engine_initialized st) then stockfish_init st else st in
  match evaluate_position_simple fen st with
  | (Returns evaluation, st') => (evaluation, st')
  | (Throws _, st') => (0%Q, st')
  end.

End Engine.

Arguments engine R : clear implicits.

(** ** A generator to run the engine on concrete inputs

    A small linear congruential generator standing for [rng]: the state is
    the last output, an integer draw is the state reduced into the bounds,
    a real draw is one of the four quarter points of the interval. *)
Definition lcg_next (g : Z) : Z := (1103515245 * g + 12345) mod 2 ^ 31.

Definition lcg_int (a b : Z) (g : Z) : Z * Z :=
  (a + g mod (b - a + 1), lcg_next g).

Definition lcg_real (a b : Q) (g : Z) : Q * Z :=
  ((a + (b - a) * ((g mod 4) # 4))%Q, lcg_next g).

Lemma lcg_int_bounds a b g : a <= b -> a <= fst (lcg_int a b g) <= b.
Proof.
  intros Hab. cbn [fst lcg_int].
  pose proof (Z.mod_pos_bound g (b - a + 1)). lia.
Qed.

Lemma lcg_real_bounds a b g :
  (a < b)%Q ->
  (a <= fst (lcg_real a b g))%Q /\ (fst (lcg_real a b g) < b)%Q.
Proof.
  intros Hab. cbn [fst lcg_real].
  pose proof (Z.mod_pos_bound g 4 eq_refl) as [Hlo Hhi].
  assert (Hcases : g mod 4 = 0 \/ g mod 4 = 1 \/ g mod 4 = 2 \/ g mod 4 = 3)
    by lia.
  destruct Hcases as [-> | [-> | [-> | ->]]]; split; lra.
Qed.

Definition lcg : RandomSource :=
  {| rng_state := Z;
     uniform_int_distribution := lcg_int;
     uniform_real_distribution := lcg_real;
     uniform_int_bounds := lcg_int_bounds;
     uniform_real_bounds := lcg_real_bounds |}.

(** ** What the specification calls material difference *)

Inductive piece_kind : Type := Pawn | Knight | Bishop | Rook | Queen | King.

Definition all_kinds : list piece_kind :=
  [Pawn; Knight; Bishop; Rook; Queen; King].

(** The weights of the specification: pawn 1, knight 3, bishop 3, rook 5,
    queen 9, king 0. *)
Definition weight (k : piece_kind) : Z :=
  match k with
  | Pawn => 1
  | Knight => 3
  | Bishop => 3
  | Rook => 5
  | Queen => 9
  | King => 0
  end.

(** FEN letters: upper case for White, lower case for Black. *)
Definition white_letter (k : piece_kind) : ascii :=
  match k with
  | Pawn => "P"
  | Knight => "N"
  | Bishop => "B"
  | Rook => "R"
  | Queen => "Q"
  | King => "K"
  end%char.

Definition black_letter (k : piece_kind) : ascii :=
  match k with
  | Pawn => "p"
  | Knight => "n"
  | Bishop => "b"
  | Rook => "r"
  | Queen => "q"
  | King => "k"
  end%char.

(** How many times [c] occurs in [s]. *)
Fixpoint occurrences (c : ascii) (s : string) : Z :=
  match s with
  | String d rest =>
      (if Ascii.eqb c d then 1 else 0) + occurrences c rest
  | EmptyString => 0
  end.

(** The weighted count of the pieces written with [letter] in a board
    field. *)
Definition material (letter : piece_kind -> ascii) (board : string) : Z :=
  fold_right (fun k total => weight k * occurrences (letter k) board + total)
    0 all_kinds.

(** White's material minus Black's: positive favours White. *)
Definition material_difference (board : string) : Z :=
  material white_letter board - material black_letter board.

(** The option string the engine reads its skill level from. *)
Definition stored_skill {R} (st : engine R) : string :=
  default "" (engine_options st !! "Skill Level").

(** The score [evaluate_position_simple] computes from the parsed skill
    level and the next draw of the generator. *)
Definition score_at {R} (fen : string) (skill : Z) (g : rng_state R) : Q :=
  if skill <? 20 then
    (count_material fen
     + fst (uniform_real_distribution R (-1 # 2) (1 # 2) g)
       * inject_Z (wrap_int (20 - skill)) / 10)%Q
  else count_material fen.

Definition sample_moves : list string :=
  ["e2e4"; "d2d4"; "g1f3"; "b1c3"; "f1c4"].

Definition start_fen : string :=
  "rnbqkbnr/pppppppp/8/8/8/8/PPPPPPPP/RNBQKBNR w KQkq - 0 1".

(** ** The chess vocabulary of the specification

    The source has no board, no [applyMove] and no [isInCheck]; the
    properties about king safety are stated with the definitions below. *)
Module Rules.

Inductive color : Type := White | Black.

Definition opposite (c : color) : color :=
  match c with
  | White => Black
  | Black => White
  end.

Definition color_eqb (a b : color) : bool :=
  match a, b with
  | White, White | Black, Black => true
  | _, _ => false
  end.

Definition kind_eqb (a b : piece_kind) : bool :=
  match a, b with
  | Pawn, Pawn | Knight, Knight | Bishop, Bishop
  | Rook, Rook | Queen, Queen | King, King => true
  | _, _ => false
  end.

Record piece : Type := {
  piece_color : color;
  kind_of : piece_kind
}.

Definition is_piece (c : color) (k : piece_kind) (o : option piece) : bool :=
  match o with
  | Some p => color_eqb (piece_color p) c && kind_eqb (kind_of p) k
  | None => false
  end.

(** A square is (file, rank), both from 0 to 7: [(0, 0)] is a1 and
    [(7, 7)] is h8. *)
Definition square : Type := Z * Z.

Definition on_board (sq : square) : bool :=
  (0 <=? fst sq) && (fst sq <=? 7) && (0 <=? snd sq) && (snd sq <=? 7).

Definition shift (sq d : square) : square :=
  (fst sq + fst d, snd sq + snd d).

(** Modelled from the spec: the Position of section 3 without its two
    clocks, which no rule below reads (the source has no position type).
    [castling] is the FEN token: the letters of the rights still held. *)
Record position : Type := {
  placement : gmap (Z * Z) piece;
  side_to_move : color;
  castling : string;
  en_passant : option square
}.

(** Modelled from the spec: a Move is an origin, a destination and an
    optional promotion kind (the source only has move strings). *)
Record move : Type := {
  origin : square;
  destination : square;
  promotion : option piece_kind
}.

Definition piece_of_letter (c : ascii) : option piece :=
  match find (fun k => Ascii.eqb c (white_letter k)) all_kinds with
  | Some k => Some {| piece_color := White; kind_of := k |}
  | None =>
      match find (fun k => Ascii.eqb c (black_letter k)) all_kinds with
      | Some k => Some {| piece_color := Black; kind_of := k |}
      | None => None
      end
  end.

(** The board field of a FEN string, read from a8: a digit skips that many
    files, [/] starts the next rank down, and every rank has eight files. *)
Fixpoint parse_placement (cs : list ascii) (file rank : Z)
  (b : gmap (Z * Z) piece) : option (gmap (Z * Z) piece) :=
  match cs with
  | [] => if (file =? 8) && (rank =? 0) then Some b else None
  | c :: rest =>
      if Ascii.eqb c "/" then
        if (file =? 8) && (0 <? rank) then parse_placement rest 0 (rank - 1) b
        else None
      else if isdigit c then
        parse_placement rest (file + digit_value c) rank b
      else
        match piece_of_letter c with
        | Some p =>
            if file <? 8 then
              parse_placement rest (file + 1) rank (<[(file, rank) := p]> b)
            else None
        | None => None
        end
  end.

(** The fields of a FEN string, separated by single spaces. *)
Fixpoint fields (s : string) : list string :=
  match s with
  | EmptyString => [EmptyString]
  | String c rest =>
      if Ascii.eqb c " " then EmptyString :: fields rest
      else
        match fields rest with
        | f :: fs => String c f :: fs
        | [] => [String c EmptyString]
        end
  end.

Definition file_of_letter (c : ascii) : option Z :=
  let n := Z.of_nat (nat_of_ascii c) - 97 in
  if (0 <=? n) && (n <=? 7) then Some n else None.

Definition rank_of_digit (c : ascii) : option Z :=
  let n := Z.of_nat (nat_of_ascii c) - 49 in
  if (0 <=? n) && (n <=? 7) then Some n else None.

Definition parse_square (f r : ascii) : option square :=
  match file_of_letter f, rank_of_digit r with
  | Some x, Some y => Some (x, y)
  | _, _ => None
  end.

Definition parse_side (s : string) : option color :=
  match s with
  | "w" => Some White
  | "b" => Some Black
  | _ => None
  end.

Definition parse_en_passant (s : string) : option (option square) :=
  match s with
  | "-" => Some None
  | String f (String r EmptyString) =>
      match parse_square f r with
      | Some sq => Some (Some sq)
      | None => None
      end
  | _ => None
  end.

(** Modelled from the spec: [parse] of section 4.1, for the board, the side
    to move, the castling rights and the en-passant square (absent from the
    source). *)
Definition parse (fen : string) : option position :=
  match fields fen with
  | board :: side :: rights :: ep :: _ =>
      match parse_placement (list_ascii_of_string board) 0 7 ∅,
            parse_side side, parse_en_passant ep with
      | Some b, Some c, Some e =>
          Some {| placement := b; side_to_move := c;
                  castling := rights; en_passant := e |}
      | _, _, _ => None
      end
  | _ => None
  end.

Definition promotion_of_letter (c : ascii) : option piece_kind :=
  match c with
  | "q" => Some Queen
  | "r" => Some Rook
  | "b" => Some Bishop
  | "n" => Some Knight
  | _ => None
  end%char.

(** Coordinate notation: origin, destination, optional promotion letter. *)
Definition parse_move (s : string) : option move :=
  match s with
  | String f1 (String r1 (String f2 (String r2 rest))) =>
      match parse_square f1 r1, parse_square f2 r2 with
      | Some o, Some d =>
          match rest with
          | EmptyString =>
              Some {| origin := o; destination := d; promotion := None |}
          | String c EmptyString =>
              match promotion_of_letter c with
              | Some k =>
                  Some {| origin := o; destination := d; promotion := Some k |}
              | None => None
              end
          | _ => None
          end
      | _, _ => None
      end
  | _ => None
  end.

(** The rook's part of a castling move: the king moves two files. *)
Definition move_castling_rook (p : piece) (m : move)
  (b : gmap (Z * Z) piece) : gmap (Z * Z) piece :=
  let r := snd (origin m) in
  if kind_eqb (kind_of p) King then
    if fst (destination m) - fst (origin m) =? 2 then
      match b !! (7, r) with
      | Some rook => <[(5, r) := rook]> (delete (7, r) b)
      | None => b
      end
    else if fst (origin m) - fst (destination m) =? 2 then
      match b !! (0, r) with
      | Some rook => <[(3, r) := rook]> (delete (0, r) b)
      | None => b
      end
    else b
  else b.

(** The captured pawn of an en-passant capture stands beside the origin. *)
Definition remove_en_passant_pawn (pos : position) (p : piece) (m : move)
  (b : gmap (Z * Z) piece) : gmap (Z * Z) piece :=
  match en_passant pos with
  | Some target =>
      if kind_eqb (kind_of p) Pawn
         && (fst target =? fst (destination m))
         && (snd target =? snd (destination m))
         && negb (fst (origin m) =? fst (destination m))
      then delete (fst (destination m), snd (origin m)) b
      else b
  | None => b
  end.

Definition next_en_passant (p : piece) (m : move) : option square :=
  if kind_eqb (kind_of p) Pawn
     && (Z.abs (snd (destination m) - snd (origin m)) =? 2)
  then Some (fst (origin m), (snd (origin m) + snd (destination m)) / 2)
  else None.

Definition square_eqb (a b : square) : bool :=
  (fst a =? fst b) && (snd a =? snd b).

Fixpoint without_letter (c : ascii) (s : string) : string :=
  match s with
  | String d rest =>
      if Ascii.eqb c d then without_letter c rest
      else String d (without_letter c rest)
  | EmptyString => EmptyString
  end.

(** A right is lost when its king moves, or when a move leaves from or
    lands on its rook's corner. *)
Definition remaining_rights (p : piece) (m : move) (rights : string) : string :=
  let touches sq := square_eqb (origin m) sq || square_eqb (destination m) sq in
  let drop (lost : bool) (c : ascii) (s : string) :=
    if lost then without_letter c s else s in
  let king_moved c := kind_eqb (kind_of p) King && color_eqb (piece_color p) c in
  drop (king_moved White || touches (7, 0)) "K"%char
    (drop (king_moved White || touches (0, 0)) "Q"%char
       (drop (king_moved Black || touches (7, 7)) "k"%char
          (drop (king_moved Black || touches (0, 7)) "q"%char rights))).

(** Modelled from the spec: [applyMove] of section 4.1 (absent from the
    source).  The piece of the side to move leaves the origin and lands on
    the destination, promoted if the move says so; a castling king takes
    its rook along and an en-passant capture removes the passed pawn.
    Without a piece of the side to move on the origin there is no result. *)
Definition applyMove (pos : position) (m : move) : option position :=
  match placement pos !! origin m with
  | Some p =>
      if color_eqb (piece_color p) (side_to_move pos) then
        let landed :=
          match promotion m with
          | Some k => {| piece_color := piece_color p; kind_of := k |}
          | None => p
          end in
        let b := delete (origin m) (placement pos) in
        let b := remove_en_passant_pawn pos p m b in
        let b := move_castling_rook p m b in
        Some {| placement := <[destination m := landed]> b;
                side_to_move := opposite (side_to_move pos);
                castling := remaining_rights p m (castling pos);
                en_passant := next_en_passant p m |}
      else None
  | None => None
  end.

Definition knight_offsets : list square :=
  [(1, 2); (2, 1); (2, -1); (1, -2); (-1, -2); (-2, -1); (-2, 1); (-1, 2)].

Definition king_offsets : list square :=
  [(1, 0); (1, 1); (0, 1); (-1, 1); (-1, 0); (-1, -1); (0, -1); (1, -1)].

Definition rook_directions : list square :=
  [(1, 0); (0, 1); (-1, 0); (0, -1)].

Definition bishop_directions : list square :=
  [(1, 1); (-1, 1); (-1, -1); (1, -1)].

(** The first piece met from [sq] in direction [d], within [fuel] steps. *)
Fixpoint first_piece (fuel : nat) (b : gmap (Z * Z) piece) (sq d : square)
  : option piece :=
  match fuel with
  | O => None
  | S n =>
      let sq' := shift sq d in
      if on_board sq' then
        match b !! sq' with
        | Some p => Some p
        | None => first_piece n b sq' d
        end
      else None
  end.

Definition slider_attacks (b : gmap (Z * Z) piece) (by_color : color)
  (k : piece_kind) (directions : list square) (target : square) : bool :=
  existsb
    (fun d =>
       let o := first_piece 7 b target d in
       is_piece by_color k o || is_piece by_color Queen o)
    directions.

Definition leaper_attacks (b : gmap (Z * Z) piece) (by_color : color)
  (k : piece_kind) (offsets : list square) (target : square) : bool :=
  existsb (fun d => is_piece by_color k (b !! shift target d)) offsets.

(** A pawn attacks the two squares diagonally ahead of it. *)
Definition pawn_attacks (b : gmap (Z * Z) piece) (by_color : color)
  (target : square) : bool :=
  let behind := match by_color with White => -1 | Black => 1 end in
  leaper_attacks b by_color Pawn [(1, behind); (-1, behind)] target.

(** Whether a piece of [by_color] attacks [target]. *)
Definition attacked (b : gmap (Z * Z) piece) (by_color : color)
  (target : square) : bool :=
  pawn_attacks b by_color target
  || leaper_attacks b by_color Knight knight_offsets target
  || leaper_attacks b by_color King king_offsets target
  || slider_attacks b by_color Rook rook_directions target
  || slider_attacks b by_color Bishop bishop_directions target.

Definition all_squares : list square :=
  file ← map Z.of_nat (seq 0 8); rank ← map Z.of_nat (seq 0 8); [(file, rank)].

Definition king_square (b : gmap (Z * Z) piece) (c : color) : option square :=
  find (fun sq => is_piece c King (b !! sq)) all_squares.

(** Modelled from the spec: [isInCheck] of section 4.1 (absent from the
    source): the king of [c] stands on a square the other side attacks. *)
Definition isInCheck (pos : position) (c : color) : bool :=
  match king_square (placement pos) c with
  | Some sq => attacked (placement pos) (opposite c) sq
  | None => false
  end.

(** [target] is reached from [sq] along [d] over empty squares only. *)
Fixpoint slides (fuel : nat) (b : gmap (Z * Z) piece) (sq d target : square)
  : bool :=
  match fuel with
  | O => false
  | S n =>
      let sq' := shift sq d in
      if on_board sq' then
        if square_eqb sq' target then true
        else
          match b !! sq' with
          | Some _ => false
          | None => slides n b sq' d target
          end
      else false
  end.

Definition is_empty (b : gmap (Z * Z) piece) (sq : square) : bool :=
  match b !! sq with
  | Some _ => false
  | None => true
  end.

Definition has_color (b : gmap (Z * Z) piece) (c : color) (sq : square)
  : bool :=
  match b !! sq with
  | Some p => color_eqb (piece_color p) c
  | None => false
  end.

Definition forward (c : color) : Z :=
  match c with
  | White => 1
  | Black => -1
  end.

Definition pawn_start_rank (c : color) : Z :=
  match c with
  | White => 1
  | Black => 6
  end.

Definition last_rank (c : color) : Z :=
  match c with
  | White => 7
  | Black => 0
  end.

Definition home_rank (c : color) : Z :=
  match c with
  | White => 0
  | Black => 7
  end.

(** Forward push, double push from the start rank, diagonal capture and
    en-passant capture. *)
Definition pawn_reaches (pos : position) (c : color) (from to : square)
  : bool :=
  let b := placement pos in
  let one := shift from (0, forward c) in
  let two := shift one (0, forward c) in
  (square_eqb to one && is_empty b one)
  || (square_eqb to two && (snd from =? pawn_start_rank c)
      && is_empty b one && is_empty b two)
  || ((square_eqb to (shift from (1, forward c))
       || square_eqb to (shift from (-1, forward c)))
      && (has_color b (opposite c) to
          || match en_passant pos with
             | Some target => square_eqb target to
             | None => false
             end)).

(** Castling: the right is held, the rook is at home, the squares between
    are empty, and the king is not in check and crosses no attacked
    square. *)
Definition castle_reaches (pos : position) (c : color) (from to : square)
  : bool :=
  let b := placement pos in
  let r := home_rank c in
  let right k :=
    contains (String (match c with White => white_letter k
                                 | Black => black_letter k end)
                EmptyString) (castling pos) in
  let safe sq := negb (attacked b (opposite c) sq) in
  square_eqb from (4, r)
  && ((square_eqb to (6, r) && right King
       && is_piece c Rook (b !! (7, r))
       && is_empty b (5, r) && is_empty b (6, r)
       && safe (4, r) && safe (5, r) && safe (6, r))
      || (square_eqb to (2, r) && right Queen
          && is_piece c Rook (b !! (0, r))
          && is_empty b (1, r) && is_empty b (2, r) && is_empty b (3, r)
          && safe (4, r) && safe (3, r) && safe (2, r))).

(** The movement rules of section 4.2, before the king-safety filter. *)
Definition pseudo_legal (pos : position) (from to : square) : bool :=
  let b := placement pos in
  let c := side_to_move pos in
  match b !! from with
  | Some p =>
      color_eqb (piece_color p) c
      && negb (has_color b c to)
      && match kind_of p with
         | Pawn => pawn_reaches pos c from to
         | Knight => existsb (fun d => square_eqb (shift from d) to)
                       knight_offsets
         | Bishop => existsb (fun d => slides 7 b from d to) bishop_directions
         | Rook => existsb (fun d => slides 7 b from d to) rook_directions
         | Queen => existsb (fun d => slides 7 b from d to)
                      (rook_directions ++ bishop_directions)
         | King => existsb (fun d => square_eqb (shift from d) to) king_offsets
                   || castle_reaches pos c from to
         end
  | None => false
  end.

(** A pawn reaching the last rank promotes, to one of four kinds. *)
Definition moves_between (pos : position) (from to : square) : list move :=
  let plain k := {| origin := from; destination := to; promotion := k |} in
  if is_piece (side_to_move pos) Pawn (placement pos !! from)
     && (snd to =? last_rank (side_to_move pos))
  then map (fun k => plain (Some k)) [Queen; Rook; Bishop; Knight]
  else [plain None].

Definition leaves_king_safe (pos : position) (m : move) : bool :=
  match applyMove pos m with
  | Some pos' => negb (isInCheck pos' (side_to_move pos))
  | None => false
  end.

(** Modelled from the spec: [legalMoves] of section 4.2 (the source has
    only the fixed list of [generate_legal_moves]): the pseudo-legal moves,
    by origin then destination, that do not leave the mover's own king in
    check. *)
Definition legalMoves (pos : position) : list move :=
  from ← all_squares;
  to ← all_squares;
  if pseudo_legal pos from to
  then filter (fun m => leaves_king_safe pos m = true) (moves_between pos from to)
  else [].

(** The number of legal moves of the position written [fen]. *)
Definition count_legal_moves (fen : string) : option nat :=
  match parse fen with
  | Some pos => Some (length (legalMoves pos))
  | None => None
  end.

(** The move written [s], applied to the position written [fen], leaves the
    king of the side that moved out of check. *)
Definition keeps_own_king_safe (fen s : string) : bool :=
  match parse fen, parse_move s with
  | Some pos, Some m =>
      match applyMove pos m with
      | Some pos' => negb (isInCheck pos' (side_to_move pos))
      | None => false
      end
  | _, _ => false
  end.

(** The move written [s], applied to the position written [fen], leaves the
    king of the side that moved in check. *)
Definition exposes_own_king (fen s : string) : bool :=
  match parse fen, parse_move s with
  | Some pos, Some m =>
      match applyMove pos m with
      | Some pos' => isInCheck pos' (side_to_move pos)
      | None => false
      end
  | _, _ => false
  end.

End Rules.

(** White: king c1, knight b1; Black: rook a1, king h8.  The knight shields
    its king from the rook. *)
Definition pinned_knight_fen : string := "7k/8/8/8/8/8/8/rNK5 w - - 0 1".

(** After 1. f3 e5 2. g4 Qh4: White is checkmated. *)
Definition fools_mate_fen : string :=
  "rnb1kbnr/pppp1ppp/8/4p3/6Pq/5P2/PPPPP2P/RNBQKBNR w KQkq - 1 3".

(** The process at start, and after its first [stockfish_init]. *)
Definition fresh_engine : engine lcg := initial_engine (R := lcg) 1.

Definition ready_engine : engine lcg := stockfish_init fresh_engine.

(** An initialised engine with the skill option set to [skill]. *)
Definition engine_with_skill (skill : string) (seed : Z) : engine lcg :=
  stockfish_set_option "Skill Level" skill
    (stockfish_init (initial_engine (R := lcg) seed)).

(** White has one pawn more than Black. *)
Definition extra_pawn_fen : string := "4k3/8/8/8/8/8/P7/4K3 w - - 0 1".


(** ** The exported interface

    The five functions the bridging header declares, one constructor per
    call, and a client as the list of its calls. *)
Inductive call : Type :=
| CallInit
| CallCleanup
| CallSetOption (name value : string)
| CallGetBestMove (fen : string) (depth : Z) (time : Q)
| CallEvaluatePosition (fen : string).

(** The engine after one call; what the call returns is dropped. *)
Definition perform {R} (c : call) (st : engine R) : engine R :=
  match c with
  | CallInit => stockfish_init st
  | CallCleanup => stockfish_cleanup st
  | CallSetOption name value => stockfish_set_option name value st
  | CallGetBestMove fen depth time =>
      snd (stockfish_get_best_move fen depth time st)
  | CallEvaluatePosition fen => snd (stockfish_evaluate_position fen st)
  end.

Definition run {R} (calls : list call) (st : engine R) : engine R :=
  fold_left (fun st c => perform c st) calls st.

(** The options [stockfish_init] writes into an empty map. *)
Definition default_options_map : gmap string string :=
  <["Hash" := "128"]> (<["Threads" := "1"]> (<["Skill Level" := "20"]> ∅)).

(** An engine whose flag and option map agree: not initialised with no
    option stored, or initialised with the three default keys present. *)
Definition consistent {R} (st : engine R) : Prop :=
  if engine_initialized st then
    is_Some (engine_options st !! "Skill Level") /\
    is_Some (engine_options st !! "Threads") /\
    is_Some (engine_options st !! "Hash")
  else engine_options st = ∅.

(** * Properties *)

(** ** The standard library model *)

Lemma stoi_in_int_range s v : stoi s = Returns v -> INT_MIN <= v <= INT_MAX.
Proof.
  unfold stoi. destruct (skip_spaces s) as [|c rest] eqn:Hs.
  - cbn. discriminate.
  - set (parts := match String c rest with
                  | String "-" r => (true, r)
                  | String "+" r => (false, r)
                  | _ => (false, String c rest)
                  end).
    destruct parts as [negative s2].
    destruct (starts_with_digit s2); [|discriminate].
    destruct ((INT_MIN <=? _) && (_ <=? INT_MAX)) eqn:Hrange; [|discriminate].
    intros [= <-]. apply andb_prop in Hrange as [Hlo Hhi]. lia.
Qed.

Example stoi_default_skill : stoi "20" = Returns 20.
Proof. reflexivity. Qed.

Example stoi_skips_space_and_suffix : stoi " 3x" = Returns 3.
Proof. reflexivity. Qed.

Example stoi_no_digits : stoi "high" = Throws invalid_argument.
Proof. reflexivity. Qed.

Example stoi_too_large : stoi "2147483648" = Throws out_of_range.
Proof. reflexivity. Qed.

(** ** Lifecycle and options *)

Section EngineFacts.

Context {R : RandomSource}.

Implicit Types st : engine R.

Lemma stockfish_init_initialized st :
  engine_initialized (stockfish_init st) = true.
Proof. unfold stockfish_init. by destruct (engine_initialized st) eqn:H. Qed.

Lemma stockfish_init_rng st : rng (stockfish_init st) = rng st.
Proof. unfold stockfish_init. by destruct (engine_initialized st). Qed.

Lemma stockfish_init_when_initialized st :
  engine_initialized st = true -> stockfish_init st = st.
Proof. unfold stockfish_init. by intros ->. Qed.

(** The guard [if (!engine_initialized) stockfish_init();] is the same as
    calling [stockfish_init], which tests the flag itself. *)
Lemma guarded_init st :
  (if negb (engine_initialized st) then stockfish_init st else st)
  = stockfish_init st.
Proof. unfold stockfish_init. by destruct (engine_initialized st). Qed.

Lemma default_options st :
  engine_initialized st = false ->
  engine_options (stockfish_init st) !! "Skill Level" = Some "20" /\
  engine_options (stockfish_init st) !! "Threads" = Some "1" /\
  engine_options (stockfish_init st) !! "Hash" = Some "128".
Proof.
  intros Hst. unfold stockfish_init. rewrite Hst. cbn [engine_options].
  repeat split; by simplify_map_eq.
Qed.

Lemma stored_skill_after_first_init st :
  engine_initialized st = false -> stored_skill (stockfish_init st) = "20".
Proof.
  intros Hst. unfold stored_skill.
  by destruct (default_options st Hst) as [-> _].
Qed.

(** Reading the skill option never fails; it leaves the flag and the
    generator alone, and the whole state when the key is present. *)
Lemma options_index_skill st :
  exists st',
    options_index "Skill Level" st = (Returns (stored_skill st), st') /\
    engine_initialized st' = engine_initialized st /\
    rng st' = rng st /\
    (is_Some (engine_options st !! "Skill Level") -> st' = st).
Proof.
  unfold options_index, stored_skill.
  destruct (engine_options st !! "Skill Level") as [v|] eqn:Hv.
  - exists st. by repeat split.
  - eexists. repeat split; [done..|]. by intros [? [=]].
Qed.

(** C7: [stockfish_init] is idempotent: from any state, a second call
    leaves the engine (flag, option map and generator) as the first call
    left it. *)
Theorem stockfish_init_idempotent st :
  stockfish_init (stockfish_init st) = stockfish_init st.
Proof.
  apply stockfish_init_when_initialized, stockfish_init_initialized.
Qed.

(** C9: before initialisation [stockfish_set_option] leaves the whole
    engine state unchanged; after initialisation it stores the pair,
    whatever the name and the value are. *)
Theorem set_option_gated_by_initialization (name value : string) st :
  (engine_initialized st = false ->
   stockfish_set_option name value st = st) /\
  (engine_initialized st = true ->
   stockfish_set_option name value st
   = set_options st (<[name := value]> (engine_options st)) /\
   engine_options (stockfish_set_option name value st) !! name = Some value).
Proof.
  unfold stockfish_set_option. split; intros ->; cbn [negb]; [done|].
  split; [done|]. cbn [set_options engine_options]. apply lookup_insert_eq.
Qed.

(** C3 (amended): [stockfish_set_option] validates nothing.  On an
    initialised engine every name and value, recognised or not, in range or
    not, is stored under that name and replaces the prior value; the other
    options, the flag and the generator are untouched. *)
Theorem set_option_stores_unvalidated (name value : string) st :
  engine_initialized st = true ->
  engine_options (stockfish_set_option name value st) !! name = Some value /\
  (forall other, other <> name ->
     engine_options (stockfish_set_option name value st) !! other
     = engine_options st !! other) /\
  engine_initialized (stockfish_set_option name value st) = true /\
  rng (stockfish_set_option name value st) = rng st.
Proof.
  intros Hst. unfold stockfish_set_option. rewrite Hst.
  cbn [negb set_options engine_options engine_initialized rng].
  repeat split; [apply lookup_insert_eq | | done].
  intros other Hne. by apply lookup_insert_ne.
Qed.

(** ** Move generation *)

Lemma generate_legal_moves_constant fen :
  generate_legal_moves fen = sample_moves.
Proof. reflexivity. Qed.

(** C4 (amended): for the standard starting position the generator returns
    exactly the five sample moves e2e4, d2d4, g1f3, b1c3, f1c4. *)
Theorem start_position_five_moves :
  generate_legal_moves start_fen = ["e2e4"; "d2d4"; "g1f3"; "b1c3"; "f1c4"] /\
  length (generate_legal_moves start_fen) = 5%nat.
Proof. split; reflexivity. Qed.

End EngineFacts.

(** ** Move selection *)

Section Selection.

Context {R : RandomSource}.

Implicit Types st : engine R.

Lemma at_index_in (moves : list string) i :
  0 <= i <= Z.of_nat (length moves) - 1 -> In (at_index moves i) moves.
Proof. intros Hi. unfold at_index. apply nth_In. lia. Qed.

(** The index drawn at low skill is inside the vector. *)
Lemma select_best_move_index_in_range (moves : list string) st :
  moves <> [] ->
  0 <= fst (uniform_int_distribution R 0 (Z.of_nat (length moves) - 1) (rng st))
    <= Z.of_nat (length moves) - 1.
Proof.
  intros Hne. apply uniform_int_bounds.
  destruct moves; [done|]. cbn [length]. lia.
Qed.

Lemma find_in {A} (f : A -> bool) (l : list A) x : find f l = Some x -> In x l.
Proof. intros H. by apply find_some in H as [H _]. Qed.

(** What [select_best_move] gives on a vector that is not empty: a member
    of the vector when the skill option parses, the exception of [stoi]
    otherwise.  The flag is never touched. *)
Lemma select_best_move_result (moves : list string) fen st :
  moves <> [] ->
  exists st',
    engine_initialized st' = engine_initialized st /\
    match stoi (stored_skill st) with
    | Returns _ =>
        exists m, select_best_move moves fen st = (Returns m, st') /\ In m moves
    | Throws e => select_best_move moves fen st = (Throws e, st')
    end.
Proof.
  intros Hne. destruct moves as [|first_move rest]; [done|].
  unfold select_best_move, bind, lift.
  destruct (options_index_skill st) as (st1 & -> & Hflag & Hrng & _).
  destruct (stoi (stored_skill st)) as [v|e]; [|by exists st1].
  destruct (v <=? 5).
  - unfold draw_int, ret.
    pose proof (select_best_move_index_in_range (first_move :: rest) st Hne)
      as Hi.
    rewrite <- Hrng in Hi.
    destruct (uniform_int_distribution R 0 _ (rng st1)) as [i g].
    exists (set_rng st1 g). split; [done|].
    eexists. split; [done|]. by apply at_index_in.
  - exists st1. split; [done|]. destruct (v <=? 10).
    + destruct (find is_center_move (first_move :: rest)) as [m|] eqn:Hfind.
      * exists m. split; [done|]. by apply find_in in Hfind.
      * exists first_move. split; [done | by left].
    + exists first_move. split; [done | by left].
Qed.

(** Above skill 10 the first move is returned and, when the skill option is
    stored, nothing changes. *)
Lemma select_best_move_high_skill first_move rest fen st v :
  is_Some (engine_options st !! "Skill Level") ->
  stoi (stored_skill st) = Returns v -> 10 < v ->
  select_best_move (first_move :: rest) fen st = (Returns first_move, st).
Proof.
  intros Hkey Hv Hhigh. unfold select_best_move, bind, lift.
  destruct (options_index_skill st) as (st1 & -> & _ & _ & Hsame).
  rewrite (Hsame Hkey), Hv.
  destruct (Z.leb_spec v 5); [lia|]. destruct (Z.leb_spec v 10); [lia|]. done.
Qed.

(** What [stockfish_get_best_move] returns: a sample move when the skill
    option parses, the empty string when [stoi] throws. *)
Lemma stockfish_get_best_move_result fen depth time st :
  match stoi (stored_skill (stockfish_init st)) with
  | Returns _ => In (fst (stockfish_get_best_move fen depth time st)) sample_moves
  | Throws _ => fst (stockfish_get_best_move fen depth time st) = ""
  end /\
  engine_initialized (snd (stockfish_get_best_move fen depth time st)) = true.
Proof.
  unfold stockfish_get_best_move. rewrite guarded_init.
  rewrite generate_legal_moves_constant.
  assert (Hne : sample_moves <> []) by done.
  destruct (select_best_move_result sample_moves fen (stockfish_init st) Hne)
    as (st' & Hflag & Hsel).
  rewrite stockfish_init_initialized in Hflag.
  unfold best_move_among. change sample_moves with
    ("e2e4" :: tail sample_moves) at 1 4.
  cbv iota. change ("e2e4" :: tail sample_moves) with sample_moves.
  destruct (stoi (stored_skill (stockfish_init st))) as [v|e].
  - destruct Hsel as (m & -> & Hin). by split.
  - rewrite Hsel. by split.
Qed.

End Selection.

(** ** Evaluation *)

Lemma occurrences_cons c d rest :
  occurrences c (String d rest)
  = occurrences c (String d EmptyString) + occurrences c rest.
Proof. cbn [occurrences]. lia. Qed.

Lemma material_difference_cons d rest :
  material_difference (String d rest)
  = material_difference (String d EmptyString) + material_difference rest.
Proof.
  unfold material_difference, material.
  cbn [fold_right all_kinds weight white_letter black_letter].
  pose proof (fun c => occurrences_cons c d rest) as H.
  rewrite (H "P"%char), (H "N"%char), (H "B"%char), (H "R"%char),
    (H "Q"%char), (H "K"%char), (H "p"%char), (H "n"%char), (H "b"%char),
    (H "r"%char), (H "q"%char), (H "k"%char).
  lia.
Qed.

(** One step of the switch adds the material difference of that letter. *)
Lemma count_piece_step z c :
  count_piece (inject_Z z) c
  = inject_Z (z + material_difference (String c EmptyString)).
Proof.
  destruct c as [[] [] [] [] [] [] [] []];
    cbv [count_piece material_difference material fold_right all_kinds weight
         white_letter black_letter occurrences Ascii.eqb Bool.eqb];
    unfold inject_Z, Qminus, Qplus, Qopp; cbn [Qnum Qden Pos.mul];
    f_equal; lia.
Qed.

Lemma count_material_from z (s : string) :
  fold_left count_piece (list_ascii_of_string s) (inject_Z z)
  = inject_Z (z + material_difference s).
Proof.
  revert z. induction s as [|c rest IH]; intros z.
  - cbn. f_equal. unfold material_difference, material. cbn. lia.
  - cbn [list_ascii_of_string fold_left].
    rewrite count_piece_step, IH, (material_difference_cons c rest).
    f_equal. lia.
Qed.

(** The loop of [evaluate_position_simple] computes the material difference
    of the board field. *)
Lemma count_material_is_material_difference fen :
  count_material fen = inject_Z (material_difference (board_part fen)).
Proof. unfold count_material. apply (count_material_from 0). Qed.

Section Evaluation.

Context {R : RandomSource}.

Implicit Types st : engine R.

Lemma evaluate_position_simple_result fen st :
  exists st',
    engine_initialized st' = engine_initialized st /\
    (is_Some (engine_options st !! "Skill Level") ->
     (forall v, stoi (stored_skill st) = Returns v -> 20 <= v) ->
     st' = st) /\
    ((forall v, stoi (stored_skill st) = Returns v -> 20 <= v) ->
     rng st' = rng st) /\
    evaluate_position_simple fen st
    = (match stoi (stored_skill st) with
       | Returns v => Returns (score_at fen v (rng st))
       | Throws e => Throws e
       end, st').
Proof.
  unfold evaluate_position_simple, bind, lift, score_at.
  destruct (options_index_skill st) as (st1 & -> & Hflag & Hrng & Hsame).
  destruct (stoi (stored_skill st)) as [v|e].
  - destruct (Z.ltb_spec v 20) as [Hlow|Hhigh].
    + unfold draw_real, ret. rewrite Hrng.
      destruct (uniform_real_distribution R _ _ (rng st)) as [x g].
      exists (set_rng st1 g). repeat split; [done|..].
      * intros _ Hskill. specialize (Hskill v eq_refl). lia.
      * intros Hskill. specialize (Hskill v eq_refl). lia.
    + exists st1. repeat split; [done| |done]. intros Hkey _. by apply Hsame.
  - exists st1. repeat split; [done| |done]. intros Hkey _. by apply Hsame.
Qed.

(** [stockfish_evaluate_position] turns the exception of [stoi] into the
    score [0.0]. *)
Lemma stockfish_evaluate_position_result fen st :
  fst (stockfish_evaluate_position fen st)
  = match stoi (stored_skill (stockfish_init st)) with
    | Returns v => score_at fen v (rng st)
    | Throws _ => 0%Q
    end /\
  engine_initialized (snd (stockfish_evaluate_position fen st)) = true /\
  (is_Some (engine_options (stockfish_init st) !! "Skill Level") ->
   (forall v, stoi (stored_skill (stockfish_init st)) = Returns v -> 20 <= v) ->
   snd (stockfish_evaluate_position fen st) = stockfish_init st) /\
  ((forall v, stoi (stored_skill (stockfish_init st)) = Returns v -> 20 <= v) ->
   rng (snd (stockfish_evaluate_position fen st)) = rng st).
Proof.
  unfold stockfish_evaluate_position. rewrite guarded_init.
  destruct (evaluate_position_simple_result fen (stockfish_init st))
    as (st' & Hflag & Hsame & Hrng & ->).
  rewrite stockfish_init_initialized in Hflag.
  rewrite stockfish_init_rng in *.
  by destruct (stoi (stored_skill (stockfish_init st))).
Qed.

End Evaluation.

(** ** The exported operations *)

Section Operations.

Context {R : RandomSource}.

Implicit Types st : engine R.

Lemma sample_move_not_empty (m : string) : In m sample_moves -> m <> "".
Proof. intros [<-|[<-|[<-|[<-|[<-|[]]]]]]; discriminate. Qed.

(** On an engine that was not initialised both operations run
    [stockfish_init], read skill 20 and draw nothing. *)
Lemma first_call_results fen depth time st :
  engine_initialized st = false ->
  stockfish_get_best_move fen depth time st = ("e2e4", stockfish_init st) /\
  stockfish_evaluate_position fen st = (count_material fen, stockfish_init st).
Proof.
  intros Hst.
  pose proof (stored_skill_after_first_init st Hst) as Hskill.
  destruct (default_options st Hst) as (Hkey & _).
  assert (Hsome : is_Some (engine_options (stockfish_init st) !! "Skill Level"))
    by (by rewrite Hkey).
  split.
  - unfold stockfish_get_best_move. rewrite guarded_init.
    unfold best_move_among, generate_legal_moves.
    rewrite (select_best_move_high_skill _ _ fen _ 20 Hsome); [done| |lia].
    by rewrite Hskill.
  - destruct (stockfish_evaluate_position_result fen st)
      as (Hval & _ & Hstate & _).
    rewrite Hskill, stoi_default_skill in Hval, Hstate.
    apply injective_projections; [by rewrite Hval|].
    apply Hstate; [done|]. intros v [= <-]. lia.
Qed.

(** C10: after [stockfish_get_best_move] or [stockfish_evaluate_position]
    the engine is initialised; on an engine that was not, the call runs
    [stockfish_init] first (Skill Level 20, Threads 1, Hash 128) and then
    answers: the move e2e4, and the material count of the position. *)
Theorem operations_initialize_engine fen depth time st :
  engine_initialized (snd (stockfish_get_best_move fen depth time st)) = true /\
  engine_initialized (snd (stockfish_evaluate_position fen st)) = true /\
  (engine_initialized st = false ->
   snd (stockfish_get_best_move fen depth time st) = stockfish_init st /\
   snd (stockfish_evaluate_position fen st) = stockfish_init st /\
   engine_options (stockfish_init st) !! "Skill Level" = Some "20" /\
   engine_options (stockfish_init st) !! "Threads" = Some "1" /\
   engine_options (stockfish_init st) !! "Hash" = Some "128" /\
   fst (stockfish_get_best_move fen depth time st) = "e2e4" /\
   fst (stockfish_evaluate_position fen st) = count_material fen).
Proof.
  split; [apply stockfish_get_best_move_result|].
  split; [apply stockfish_evaluate_position_result|].
  intros Hst. destruct (first_call_results fen depth time st Hst) as [-> ->].
  destruct (default_options st Hst) as (? & ? & ?). by repeat split.
Qed.

(** C8: whatever the position, the depth and the time, a move returned by
    [stockfish_get_best_move] that is not empty is one of the five sample
    moves; when the stored skill level parses as an [int] the move is never
    empty; and the result does not depend on the three arguments. *)
Theorem best_move_is_a_sample_move fen depth time st :
  (fst (stockfish_get_best_move fen depth time st) <> "" ->
   In (fst (stockfish_get_best_move fen depth time st))
      ["e2e4"; "d2d4"; "g1f3"; "b1c3"; "f1c4"]) /\
  ((exists v, stoi (stored_skill (stockfish_init st)) = Returns v) ->
   In (fst (stockfish_get_best_move fen depth time st))
      ["e2e4"; "d2d4"; "g1f3"; "b1c3"; "f1c4"]) /\
  (forall fen' depth' time',
     stockfish_get_best_move fen' depth' time' st
     = stockfish_get_best_move fen depth time st).
Proof.
  destruct (stockfish_get_best_move_result fen depth time st) as [Hres _].
  repeat split.
  - intros Hne. by destruct (stoi (stored_skill (stockfish_init st))).
  - intros [v Hv]. by rewrite Hv in Hres.
Qed.

(** C1 (amended): the best-move code has no separate "none" result.  For an
    empty move list [select_best_move] and the guard of
    [stockfish_get_best_move] return the empty string; the generator never
    returns an empty list, and [stockfish_get_best_move] returns the empty
    string exactly when reading the skill level throws. *)
Theorem no_move_is_the_empty_string fen depth time st :
  select_best_move [] fen st = (Returns "", st) /\
  best_move_among [] fen st = ("", st) /\
  (exists m, In m (generate_legal_moves fen)) /\
  (fst (stockfish_get_best_move fen depth time st) = "" <->
   exists e, stoi (stored_skill (stockfish_init st)) = Throws e).
Proof.
  repeat split; [by exists "e2e4"; left | |].
  - intros Hempty.
    destruct (stockfish_get_best_move_result fen depth time st) as [Hres _].
    destruct (stoi (stored_skill (stockfish_init st))) as [v|e]; [|by exists e].
    by apply sample_move_not_empty in Hres.
  - intros [e He].
    destruct (stockfish_get_best_move_result fen depth time st) as [Hres _].
    by rewrite He in Hres.
Qed.

(** C2 (amended): evaluation is deterministic when the stored skill level
    does not parse to an [int] below 20, as with the default 20: two engines
    with the same flag and options give the same score whatever their
    generators hold, from [stockfish_evaluate_position] as from
    [evaluate_position_simple], and the call leaves the generator as it
    was. *)
Theorem evaluation_deterministic_at_full_skill fen st1 st2 :
  engine_initialized st1 = engine_initialized st2 ->
  engine_options st1 = engine_options st2 ->
  (forall v, stoi (stored_skill (stockfish_init st1)) = Returns v -> 20 <= v) ->
  fst (stockfish_evaluate_position fen st1)
  = fst (stockfish_evaluate_position fen st2) /\
  rng (snd (stockfish_evaluate_position fen st1)) = rng st1 /\
  fst (evaluate_position_simple fen (stockfish_init st1))
  = fst (evaluate_position_simple fen (stockfish_init st2)).
Proof.
  intros Hflag Hopts Hskill.
  assert (Hsame : stored_skill (stockfish_init st1)
                  = stored_skill (stockfish_init st2)).
  { unfold stored_skill, stockfish_init. rewrite Hflag.
    destruct (engine_initialized st2); cbn [engine_options]; by rewrite Hopts. }
  destruct (stockfish_evaluate_position_result fen st1) as (-> & _ & _ & Hrng).
  destruct (stockfish_evaluate_position_result fen st2) as (-> & _).
  destruct (evaluate_position_simple_result fen (stockfish_init st1))
    as (? & _ & _ & _ & ->).
  destruct (evaluate_position_simple_result fen (stockfish_init st2))
    as (? & _ & _ & _ & ->).
  split; [|split; [by apply Hrng|]]; cbn [fst]; rewrite <- Hsame;
    (destruct (stoi (stored_skill (stockfish_init st1))) as [v|e]; [|done]);
    specialize (Hskill v eq_refl); unfold score_at;
    by destruct (Z.ltb_spec v 20); [lia|].
Qed.

(** C5 (amended): when the stored skill level parses to an [int] of at
    least 20, as with the default 20, the score of every FEN string is the
    material difference of its board field, White minus Black, with the
    weights pawn 1, knight 3, bishop 3, rook 5, queen 9, king 0; it is
    positive exactly when White has more material. *)
Theorem evaluation_is_material_difference fen st v :
  stoi (stored_skill (stockfish_init st)) = Returns v -> 20 <= v ->
  fst (stockfish_evaluate_position fen st)
  = inject_Z (material white_letter (board_part fen)
              - material black_letter (board_part fen)) /\
  ((0 < fst (stockfish_evaluate_position fen st))%Q <->
   material black_letter (board_part fen)
   < material white_letter (board_part fen)).
Proof.
  intros Hv Hfull.
  destruct (stockfish_evaluate_position_result fen st) as (-> & _).
  rewrite Hv. unfold score_at. destruct (Z.ltb_spec v 20); [lia|].
  rewrite count_material_is_material_difference. unfold material_difference.
  split; [done|]. unfold Qlt, inject_Z. cbn [Qnum Qden]. lia.
Qed.

End Operations.

(** C6 (amended): the generator returns the same five sample moves for
    every position and filters nothing; on the standard starting position
    each of them, once applied, leaves White's king out of check. *)
Theorem generator_ignores_the_position :
  (forall fen, generate_legal_moves fen = sample_moves) /\
  (forall s, In s (generate_legal_moves start_fen) ->
     Rules.keeps_own_king_safe start_fen s = true).
Proof.
  split; [done|].
  intros s [<-|[<-|[<-|[<-|[<-|[]]]]]]; by vm_compute.
Qed.

(** ** The rules of chess against standard positions

    The number of legal moves the rules above give on positions whose
    counts are well known. *)

Example start_position_has_twenty_legal_moves :
  Rules.count_legal_moves start_fen = Some 20%nat.
Proof. by vm_compute. Qed.

Example castling_and_pins_position :
  Rules.count_legal_moves
    "r3k2r/p1ppqpb1/bn2pnp1/3PN3/1p2P3/2N2Q1p/PPPBBPPP/R3K2R w KQkq - 0 1"
  = Some 48%nat.
Proof. by vm_compute. Qed.

Example rook_endgame_position :
  Rules.count_legal_moves "8/2p5/3p4/KP5r/1R3p1k/8/4P1P1/8 w - - 0 1"
  = Some 14%nat.
Proof. by vm_compute. Qed.

Example promotion_position :
  Rules.count_legal_moves
    "rnbq1k1r/pp1Pbppp/2p5/8/2B5/8/PPP1NnPP/RNBQK2R w KQ - 1 8"
  = Some 44%nat.
Proof. by vm_compute. Qed.

Example fools_mate_has_no_legal_move :
  Rules.count_legal_moves fools_mate_fen = Some 0%nat.
Proof. by vm_compute. Qed.

(** ** Concrete runs *)

(** C1: the position after fool's mate has no legal move, yet
    [stockfish_get_best_move] answers e2e4 and not a "none" value; and where
    the move list is empty the code returns the empty string. *)
Lemma checkmate_gets_a_move_and_no_moves_the_empty_string :
  Rules.count_legal_moves fools_mate_fen = Some 0%nat /\
  fst (stockfish_get_best_move fools_mate_fen 1 1 fresh_engine) = "e2e4" /\
  select_best_move [] fools_mate_fen ready_engine = (Returns "", ready_engine) /\
  fst (best_move_among [] fools_mate_fen ready_engine) = "".
Proof. repeat split; by vm_compute. Qed.

(** C2: at skill 10 the score of the starting position follows the
    generator: two engines with the same options disagree, and so do two
    calls in a row on one engine. *)
Lemma evaluation_varies_below_full_skill :
  engine_initialized (engine_with_skill "10" 1)
  = engine_initialized (engine_with_skill "10" 2) /\
  engine_options (engine_with_skill "10" 1)
  = engine_options (engine_with_skill "10" 2) /\
  (fst (stockfish_evaluate_position start_fen (engine_with_skill "10" 1))
   == - 1 # 4)%Q /\
  (fst (stockfish_evaluate_position start_fen (engine_with_skill "10" 2))
   == 0)%Q /\
  (fst (stockfish_evaluate_position start_fen
          (snd (stockfish_evaluate_position start_fen
                  (engine_with_skill "10" 1))))
   == 0)%Q /\
  Qeq_bool
    (fst (stockfish_evaluate_position start_fen (engine_with_skill "10" 1)))
    (fst (stockfish_evaluate_position start_fen (engine_with_skill "10" 2)))
  = false.
Proof. repeat split; by vm_compute. Qed.

Lemma evaluation_deterministic_at_full_skill_witness :
  fst (stockfish_evaluate_position start_fen (engine_with_skill "20" 1))
  = fst (stockfish_evaluate_position start_fen (engine_with_skill "20" 2)).
Proof.
  apply (evaluation_deterministic_at_full_skill start_fen
           (engine_with_skill "20" 1) (engine_with_skill "20" 2)).
  - reflexivity.
  - reflexivity.
  - intros v Hv. vm_compute in Hv. injection Hv as <-. lia.
Defined.

(** C3: on an initialised engine the out-of-range skill level 99 replaces
    the stored 20, and the unrecognised option Ponder is stored too. *)
Lemma out_of_range_and_unknown_options_are_stored :
  engine_options ready_engine !! "Skill Level" = Some "20" /\
  engine_options (stockfish_set_option "Skill Level" "99" ready_engine)
    !! "Skill Level" = Some "99" /\
  stoi "99" = Returns 99 /\
  engine_options ready_engine !! "Ponder" = None /\
  engine_options (stockfish_set_option "Ponder" "on" ready_engine)
    !! "Ponder" = Some "on".
Proof. repeat split; by vm_compute. Qed.

Lemma set_option_stores_unvalidated_witness :
  engine_initialized ready_engine = true /\
  engine_options (stockfish_set_option "Threads" "0" ready_engine)
    !! "Threads" = Some "0".
Proof.
  split; [reflexivity|].
  apply (set_option_stores_unvalidated "Threads" "0" ready_engine).
  reflexivity.
Defined.

(** C4: on the starting position the generator returns 5 moves, where the
    rules of chess give 20. *)
Lemma start_position_not_twenty_moves :
  length (generate_legal_moves start_fen) = 5%nat /\
  Nat.eqb (length (generate_legal_moves start_fen)) 20 = false /\
  Rules.count_legal_moves start_fen = Some 20%nat.
Proof. repeat split; by vm_compute. Qed.

(** C5: at skill 0 the starting position, with equal material, scores
    minus one half; and a position where White is a pawn up scores zero when
    the draw is the lowest one. *)
Lemma low_skill_score_is_not_the_material_difference :
  material_difference (board_part start_fen) = 0 /\
  (fst (stockfish_evaluate_position start_fen (engine_with_skill "0" 1))
   == - 1 # 2)%Q /\
  material_difference (board_part extra_pawn_fen) = 1 /\
  (fst (stockfish_evaluate_position extra_pawn_fen (engine_with_skill "0" 4))
   == 0)%Q.
Proof. repeat split; by vm_compute. Qed.

Lemma evaluation_is_material_difference_witness :
  fst (stockfish_evaluate_position extra_pawn_fen fresh_engine)
  = inject_Z (material white_letter (board_part extra_pawn_fen)
              - material black_letter (board_part extra_pawn_fen)).
Proof.
  apply (evaluation_is_material_difference extra_pawn_fen fresh_engine 20).
  - reflexivity.
  - lia.
Defined.

(** C6: with a white knight on b1 shielding the king on c1 from a rook on
    a1, White is not in check, the generator still returns b1c3, and that
    move leaves White's king in check. *)
Lemma pinned_knight_move_exposes_king :
  In "b1c3" (generate_legal_moves pinned_knight_fen) /\
  (pos ← Rules.parse pinned_knight_fen;
   Some (Rules.side_to_move pos, Rules.isInCheck pos Rules.White))
  = Some (Rules.White, false) /\
  (pos ← Rules.parse pinned_knight_fen;
   m ← Rules.parse_move "b1c3";
   pos' ← Rules.applyMove pos m;
   Some (Rules.isInCheck pos' Rules.White)) = Some true /\
  Rules.exposes_own_king pinned_knight_fen "b1c3" = true.
Proof. repeat split; [right; right; right; by left | by vm_compute..]. Qed.

Lemma best_move_is_a_sample_move_witness :
  In (fst (stockfish_get_best_move fools_mate_fen 12 (3 # 2)
             (engine_with_skill "3" 7)))
     ["e2e4"; "d2d4"; "g1f3"; "b1c3"; "f1c4"].
Proof.
  apply (best_move_is_a_sample_move fools_mate_fen 12 (3 # 2)
           (engine_with_skill "3" 7)).
  exists 3. reflexivity.
Defined.

Lemma set_option_gated_by_initialization_witness :
  stockfish_set_option "Hash" "256" fresh_engine = fresh_engine /\
  engine_options (stockfish_set_option "Hash" "256" ready_engine) !! "Hash"
  = Some "256".
Proof.
  split.
  - apply (set_option_gated_by_initialization "Hash" "256" fresh_engine).
    reflexivity.
  - apply (set_option_gated_by_initialization "Hash" "256" ready_engine).
    reflexivity.
Defined.

Lemma operations_initialize_engine_witness :
  snd (stockfish_get_best_move start_fen 8 1 fresh_engine) = ready_engine /\
  fst (stockfish_get_best_move start_fen 8 1 fresh_engine) = "e2e4".
Proof.
  destruct (operations_initialize_engine start_fen 8 1 fresh_engine)
    as (_ & _ & H).
  destruct (H eq_refl) as (Hstate & _ & _ & _ & _ & Hmove & _).
  split; [exact Hstate | exact Hmove].
Defined.

(** * Further properties of the engine *)

(** ** What the operations do to the state *)

Section StateEffects.

Context {R : RandomSource}.

Implicit Types st : engine R.

(** With the skill option stored, [select_best_move] changes nothing but
    the generator. *)
Lemma select_best_move_frame (moves : list string) fen st :
  is_Some (engine_options st !! "Skill Level") ->
  engine_options (snd (select_best_move moves fen st)) = engine_options st /\
  engine_initialized (snd (select_best_move moves fen st))
  = engine_initialized st.
Proof.
  intros Hkey. destruct moves as [|first_move rest]; [done|].
  unfold select_best_move, bind, lift.
  destruct (options_index_skill st) as (st1 & -> & _ & _ & Hsame).
  rewrite (Hsame Hkey).
  destruct (stoi (stored_skill st)) as [v|e]; [|done].
  destruct (v <=? 5).
  - unfold draw_int, ret. by destruct (uniform_int_distribution R 0 _ (rng st)).
  - destruct (v <=? 10); [|done].
    by destruct (find is_center_move (first_move :: rest)).
Qed.

Lemma evaluate_position_simple_frame fen st :
  is_Some (engine_options st !! "Skill Level") ->
  engine_options (snd (evaluate_position_simple fen st)) = engine_options st /\
  engine_initialized (snd (evaluate_position_simple fen st))
  = engine_initialized st.
Proof.
  intros Hkey. unfold evaluate_position_simple, bind, lift.
  destruct (options_index_skill st) as (st1 & -> & _ & _ & Hsame).
  rewrite (Hsame Hkey).
  destruct (stoi (stored_skill st)) as [v|e]; [|done].
  destruct (v <? 20); [|done].
  unfold draw_real, ret.
  by destruct (uniform_real_distribution R _ _ (rng st)).
Qed.

Lemma stockfish_get_best_move_frame fen depth time st :
  is_Some (engine_options (stockfish_init st) !! "Skill Level") ->
  engine_options (snd (stockfish_get_best_move fen depth time st))
  = engine_options (stockfish_init st).
Proof.
  intros Hkey. unfold stockfish_get_best_move. rewrite guarded_init.
  unfold best_move_among, generate_legal_moves.
  destruct (select_best_move_frame
              ["e2e4"; "d2d4"; "g1f3"; "b1c3"; "f1c4"] fen
              (stockfish_init st) Hkey) as [Hopts _].
  by destruct (select_best_move _ fen (stockfish_init st)) as [[m|e] st'].
Qed.

Lemma stockfish_evaluate_position_frame fen st :
  is_Some (engine_options (stockfish_init st) !! "Skill Level") ->
  engine_options (snd (stockfish_evaluate_position fen st))
  = engine_options (stockfish_init st).
Proof.
  intros Hkey. unfold stockfish_evaluate_position. rewrite guarded_init.
  destruct (evaluate_position_simple_frame fen (stockfish_init st) Hkey)
    as [Hopts _].
  by destruct (evaluate_position_simple fen (stockfish_init st))
    as [[x|e] st'].
Qed.

Lemma consistent_transfer st st' :
  engine_initialized st' = engine_initialized st ->
  engine_options st' = engine_options st ->
  consistent st -> consistent st'.
Proof. unfold consistent. by intros -> ->. Qed.

Lemma stockfish_init_consistent st :
  consistent st -> consistent (stockfish_init st).
Proof.
  intros Hst. destruct (engine_initialized st) eqn:Hflag.
  - by rewrite stockfish_init_when_initialized.
  - unfold consistent. rewrite stockfish_init_initialized.
    destruct (default_options st Hflag) as (-> & -> & ->). by repeat split.
Qed.

Lemma consistent_skill_key st :
  consistent st -> engine_initialized st = true ->
  is_Some (engine_options st !! "Skill Level").
Proof. unfold consistent. intros Hst Hflag. rewrite Hflag in Hst. tauto. Qed.

Lemma perform_consistent (c : call) st :
  consistent st -> consistent (perform c st).
Proof.
  intros Hst. pose proof (stockfish_init_consistent st Hst) as Hinit.
  pose proof (consistent_skill_key _ Hinit (stockfish_init_initialized st))
    as Hkey.
  destruct c as [| |name value|fen depth time|fen]; cbn [perform].
  - done.
  - done.
  - clear Hinit Hkey. unfold stockfish_set_option, consistent in *.
    destruct (engine_initialized st) eqn:Hflag; cbn [negb];
      [|by rewrite Hflag].
    cbn [set_options engine_initialized engine_options]. rewrite Hflag.
    destruct Hst as (H1 & H2 & H3).
    repeat split; rewrite lookup_insert; by case_decide.
  - refine (consistent_transfer (stockfish_init st) _ _ _ Hinit).
    + rewrite stockfish_init_initialized.
      apply stockfish_get_best_move_result.
    + by apply stockfish_get_best_move_frame.
  - refine (consistent_transfer (stockfish_init st) _ _ _ Hinit).
    + rewrite stockfish_init_initialized.
      apply stockfish_evaluate_position_result.
    + by apply stockfish_evaluate_position_frame.
Qed.

Lemma run_consistent (calls : list call) st :
  consistent st -> consistent (run calls st).
Proof.
  revert st. induction calls as [|c calls IH]; intros st Hst; [done|].
  cbn [run fold_left]. apply IH. by apply perform_consistent.
Qed.

End StateEffects.

(** ** Lifecycle and option storage *)

Section Lifecycle.

Context {R : RandomSource}.

Implicit Types st : engine R.

(** X1: [stockfish_cleanup] followed by [stockfish_init] forgets every
    option that was stored: the engine is initialised with exactly the three
    defaults, and the generator is the one it had.  Between the two calls
    [stockfish_set_option] is dropped. *)
Theorem cleanup_then_init_restores_defaults st :
  stockfish_init (stockfish_cleanup st)
  = {| engine_initialized := true;
       engine_options := default_options_map;
       rng := rng st |} /\
  (forall name value,
     stockfish_init (stockfish_set_option name value (stockfish_cleanup st))
     = stockfish_init (stockfish_cleanup st)).
Proof. split; reflexivity. Qed.

(** X2: storing twice under one name keeps the last value only. *)
Theorem set_option_last_write_wins (name v1 v2 : string) st :
  stockfish_set_option name v2 (stockfish_set_option name v1 st)
  = stockfish_set_option name v2 st.
Proof.
  unfold stockfish_set_option.
  destruct (engine_initialized st) eqn:Hflag; cbn [negb]; rewrite ?Hflag; [|done].
  cbn [set_options engine_initialized engine_options rng negb].
  rewrite Hflag. cbn [negb]. unfold set_options.
  cbn [engine_initialized engine_options rng].
  by rewrite insert_insert_eq.
Qed.

(** X3: options stored under different names do not interfere: the two
    calls commute. *)
Theorem set_option_commutes (n1 n2 v1 v2 : string) st :
  n1 <> n2 ->
  stockfish_set_option n1 v1 (stockfish_set_option n2 v2 st)
  = stockfish_set_option n2 v2 (stockfish_set_option n1 v1 st).
Proof.
  intros Hne. unfold stockfish_set_option.
  destruct (engine_initialized st) eqn:Hflag; cbn [negb]; rewrite ?Hflag; [|done].
  cbn [set_options engine_initialized engine_options rng negb].
  rewrite Hflag. cbn [negb]. unfold set_options.
  cbn [engine_initialized engine_options rng].
  f_equal. by apply insert_insert_ne.
Qed.

(** X4: whatever calls a client makes from process start, the flag and the
    option map agree: a not initialised engine stores no option, an
    initialised one has Skill Level, Threads and Hash stored. *)
Theorem reachable_states_consistent (calls : list call) (seed : rng_state R) :
  consistent (run calls (initial_engine seed)).
Proof. by apply run_consistent. Qed.

(** X5: in every state a client can reach, a best-move or evaluation query
    leaves the option map as [stockfish_init] gives it: reading the skill
    level through [operator[]] never inserts an entry. *)
Theorem queries_keep_options (calls : list call) (seed : rng_state R)
  fen depth time :
  engine_options
    (snd (stockfish_get_best_move fen depth time
            (run calls (initial_engine seed))))
  = engine_options (stockfish_init (run calls (initial_engine seed))) /\
  engine_options
    (snd (stockfish_evaluate_position fen (run calls (initial_engine seed))))
  = engine_options (stockfish_init (run calls (initial_engine seed))).
Proof.
  pose proof (run_consistent calls (initial_engine seed) eq_refl) as Hst.
  apply stockfish_init_consistent in Hst.
  pose proof (consistent_skill_key _ Hst (stockfish_init_initialized _)) as Hkey.
  split.
  - by apply stockfish_get_best_move_frame.
  - by apply stockfish_evaluate_position_frame.
Qed.

End Lifecycle.

(** ** Move selection and the skill level *)

Section SkillLevel.

Context {R : RandomSource}.

Implicit Types st : engine R.

(** The move [select_best_move] returns is decided by the stored skill
    string and the generator alone. *)
Lemma select_best_move_reads (moves : list string) fen st st' :
  stored_skill st = stored_skill st' -> rng st = rng st' ->
  fst (select_best_move moves fen st) = fst (select_best_move moves fen st').
Proof.
  intros Hskill Hrng. destruct moves as [|first_move rest]; [done|].
  unfold select_best_move, bind, lift.
  destruct (options_index_skill st) as (st1 & -> & _ & Hrng1 & _).
  destruct (options_index_skill st') as (st1' & -> & _ & Hrng1' & _).
  rewrite <- Hskill.
  destruct (stoi (stored_skill st)) as [v|e]; [|done].
  destruct (v <=? 5).
  - unfold draw_int, ret. rewrite Hrng1, Hrng1', Hrng.
    by destruct (uniform_int_distribution R 0 _ (rng st')).
  - destruct (v <=? 10); [|done].
    by destruct (find is_center_move (first_move :: rest)).
Qed.

Lemma stored_skill_set_other (name value : string) st :
  name <> "Skill Level" ->
  stored_skill (stockfish_init (stockfish_set_option name value st))
  = stored_skill (stockfish_init st).
Proof.
  intros Hne. unfold stockfish_set_option.
  destruct (engine_initialized st) eqn:Hflag; cbn [negb]; [|done].
  rewrite !stockfish_init_when_initialized by done.
  unfold stored_skill. cbn [set_options engine_options].
  by rewrite lookup_insert_ne.
Qed.

Lemma rng_set_option (name value : string) st :
  rng (stockfish_set_option name value st) = rng st.
Proof.
  unfold stockfish_set_option. by destruct (engine_initialized st).
Qed.

(** X6: only Skill Level is ever read.  Storing any other option, Threads
    and Hash included, changes neither the move nor the score the engine
    returns. *)
Theorem other_options_are_ignored (name value : string) fen depth time st :
  name <> "Skill Level" ->
  fst (stockfish_get_best_move fen depth time
         (stockfish_set_option name value st))
  = fst (stockfish_get_best_move fen depth time st) /\
  fst (stockfish_evaluate_position fen (stockfish_set_option name value st))
  = fst (stockfish_evaluate_position fen st).
Proof.
  intros Hne. pose proof (stored_skill_set_other name value st Hne) as Hskill.
  split.
  - unfold stockfish_get_best_move. rewrite !guarded_init.
    unfold best_move_among, generate_legal_moves.
    pose proof (select_best_move_reads
                  ["e2e4"; "d2d4"; "g1f3"; "b1c3"; "f1c4"] fen
                  (stockfish_init (stockfish_set_option name value st))
                  (stockfish_init st) Hskill) as Hsel.
    rewrite !stockfish_init_rng, rng_set_option in Hsel.
    specialize (Hsel eq_refl).
    destruct (select_best_move _ fen (stockfish_init (stockfish_set_option _ _ _)))
      as [[m|e] s1];
      destruct (select_best_move _ fen (stockfish_init st)) as [[m'|e'] s2];
      cbn [fst] in *; congruence.
  - destruct (stockfish_evaluate_position_result fen
                (stockfish_set_option name value st)) as (-> & _).
    destruct (stockfish_evaluate_position_result fen st) as (-> & _).
    by rewrite Hskill, rng_set_option.
Qed.

Lemma find_center_sample_move :
  find is_center_move ["e2e4"; "d2d4"; "g1f3"; "b1c3"; "f1c4"] = Some "e2e4".
Proof. reflexivity. Qed.

(** X7: above skill 5 nothing is random in move selection: the move is
    e2e4 for every position, and the generator is not advanced. *)
Theorem best_move_fixed_above_skill_five fen depth time st v :
  stoi (stored_skill (stockfish_init st)) = Returns v -> 5 < v ->
  fst (stockfish_get_best_move fen depth time st) = "e2e4" /\
  rng (snd (stockfish_get_best_move fen depth time st)) = rng st.
Proof.
  intros Hv Hhigh. unfold stockfish_get_best_move. rewrite guarded_init.
  unfold best_move_among, generate_legal_moves, select_best_move, bind, lift.
  destruct (options_index_skill (stockfish_init st))
    as (st1 & -> & _ & Hrng & _).
  rewrite Hv. destruct (Z.leb_spec v 5); [lia|].
  rewrite find_center_sample_move, stockfish_init_rng in *.
  by destruct (v <=? 10).
Qed.

(** X8: on any vector that is not empty [select_best_move] returns one of
    its elements whenever the stored skill level parses; the random index of
    the low-skill branch never leaves the vector. *)
Theorem select_best_move_returns_member (moves : list string) fen st v :
  moves <> [] -> stoi (stored_skill st) = Returns v ->
  exists m, fst (select_best_move moves fen st) = Returns m /\ In m moves.
Proof.
  intros Hne Hv.
  destruct (select_best_move_result moves fen st Hne) as (st' & _ & Hres).
  rewrite Hv in Hres. destruct Hres as (m & -> & Hin). by exists m.
Qed.

(** X9: at skill 6 to 10 [select_best_move] returns the first move that
    mentions e4, d4, e5 or d5; it falls back to the head of the vector only
    when no move does. *)
Theorem medium_skill_prefers_center (moves : list string) fen st v m :
  stoi (stored_skill st) = Returns v -> 5 < v <= 10 ->
  fst (select_best_move moves fen st) = Returns m -> moves <> [] ->
  (is_center_move m = true /\ In m moves) \/
  (head moves = Some m /\ forall c, In c moves -> is_center_move c = false).
Proof.
  intros Hv [Hlo Hhi] Hres Hne. destruct moves as [|first_move rest]; [done|].
  revert Hres. unfold select_best_move, bind, lift.
  destruct (options_index_skill st) as (st1 & -> & _).
  rewrite Hv. destruct (Z.leb_spec v 5); [lia|].
  destruct (Z.leb_spec v 10); [|lia].
  destruct (find is_center_move (first_move :: rest)) as [c|] eqn:Hfind.
  - intros [= <-]. left. apply find_some in Hfind. tauto.
  - intros [= <-]. right. split; [done|].
    intros c Hin. by apply (find_none _ _ Hfind).
Qed.

(** X10: called on an engine that stores no Skill Level, as before any
    [stockfish_init], [evaluate_position_simple] and [select_best_move]
    throw [std::invalid_argument], and the lookup leaves an empty Skill Level
    entry behind in the option map. *)
Theorem missing_skill_level_throws (first_move : string) rest fen st :
  engine_options st !! "Skill Level" = None ->
  evaluate_position_simple fen st
  = (Throws invalid_argument,
     set_options st (<["Skill Level" := ""]> (engine_options st))) /\
  select_best_move (first_move :: rest) fen st
  = (Throws invalid_argument,
     set_options st (<["Skill Level" := ""]> (engine_options st))).
Proof.
  intros Hkey.
  unfold evaluate_position_simple, select_best_move, bind, lift, options_index.
  by rewrite Hkey.
Qed.

(** X11: a stored skill level that [std::stoi] rejects is swallowed by the
    two exported queries: the move is the empty string, the score is 0
    whatever the position, and the engine is left exactly as it was. *)
Theorem unparsable_skill_is_swallowed fen depth time st (s : string) e :
  engine_initialized st = true ->
  engine_options st !! "Skill Level" = Some s ->
  stoi s = Throws e ->
  stockfish_get_best_move fen depth time st = ("", st) /\
  stockfish_evaluate_position fen st = (0%Q, st).
Proof.
  intros Hflag Hkey Hs.
  unfold stockfish_get_best_move, stockfish_evaluate_position.
  rewrite guarded_init, (stockfish_init_when_initialized st Hflag).
  unfold best_move_among, generate_legal_moves, select_best_move,
    evaluate_position_simple, bind, lift, options_index.
  by rewrite Hkey, Hs.
Qed.

End SkillLevel.

(** ** Evaluation: the board field and the size of the score *)

Lemma append_empty (t : string) : "" ++ t = t.
Proof. reflexivity. Qed.

Lemma append_String (c : ascii) (s t : string) :
  String c s ++ t = String c (s ++ t).
Proof. reflexivity. Qed.

Lemma find_char_String (c : ascii) (s : string) :
  find_char " " (String c s)
  = if ascii_dec " " c then Some O
    else match find_char " " s with
         | Some n => Some (S n)
         | None => None
         end.
Proof.
  unfold find_char. cbn [index String.prefix].
  destruct (ascii_dec " " c); [by destruct s | done].
Qed.

Lemma find_char_append (b rest : string) :
  find_char " " b = None ->
  find_char " " (b ++ String " " rest) = Some (String.length b).
Proof.
  induction b as [|c b' IH]; intros Hb.
  - rewrite append_empty, find_char_String. by destruct (ascii_dec " " " ").
  - rewrite append_String, find_char_String.
    rewrite find_char_String in Hb.
    destruct (ascii_dec " " c); [done|].
    destruct (find_char " " b'); [done|]. by rewrite IH.
Qed.

Lemma substring_prefix (b t : string) :
  substring 0 (String.length b) (b ++ t) = b.
Proof.
  induction b as [|c b' IH].
  - rewrite append_empty. by destruct t.
  - rewrite append_String. cbn. by rewrite IH.
Qed.

Lemma board_part_of_fields (b rest : string) :
  find_char " " b = None -> board_part (b ++ String " " rest) = b.
Proof.
  intros Hb. unfold board_part. rewrite (find_char_append b rest Hb).
  apply substring_prefix.
Qed.

Lemma board_part_without_space (b : string) :
  find_char " " b = None -> board_part b = b.
Proof. intros Hb. unfold board_part. by rewrite Hb. Qed.

Lemma substring_length_le (n : nat) (s : string) :
  (String.length (substring 0 n s) <= String.length s)%nat.
Proof.
  revert n. induction s as [|c s' IH]; intros [|n]; cbn; try lia.
  specialize (IH n). lia.
Qed.

Lemma board_part_length_le (fen : string) :
  (String.length (board_part fen) <= String.length fen)%nat.
Proof.
  unfold board_part, substr0. destruct (find_char " " fen); [|lia].
  apply substring_length_le.
Qed.

Lemma material_difference_letter_bound (c : ascii) :
  -9 <= material_difference (String c EmptyString) <= 9.
Proof. destruct c as [[] [] [] [] [] [] [] []]; by vm_compute. Qed.

Lemma material_difference_bound (s : string) :
  - 9 * Z.of_nat (String.length s) <= material_difference s
  <= 9 * Z.of_nat (String.length s).
Proof.
  induction s as [|c s' IH].
  - by vm_compute.
  - rewrite material_difference_cons. cbn [String.length].
    pose proof (material_difference_letter_bound c). lia.
Qed.


Section Scores.

Context {R : RandomSource}.

Implicit Types st : engine R.


(** X13: only the board field is scored.  Whatever follows the first space
    of the FEN string (the side to move, the castling letters, the
    en-passant square) changes neither the material count nor the result
    of [stockfish_evaluate_position]. *)
Theorem evaluation_reads_board_field_only (board rest : string) st :
  find_char " " board = None ->
  count_material (board ++ String " " rest)
  = inject_Z (material_difference board) /\
  stockfish_evaluate_position (board ++ String " " rest) st
  = stockfish_evaluate_position board st.
Proof.
  intros Hb.
  assert (Hcount : count_material (board ++ String " " rest)
                   = count_material board).
  { unfold count_material.
    by rewrite board_part_of_fields, board_part_without_space. }
  split.
  - rewrite Hcount, count_material_is_material_difference.
    by rewrite board_part_without_space.
  - unfold stockfish_evaluate_position, evaluate_position_simple.
    by rewrite Hcount.
Qed.

(** X14: the material count is an integer of magnitude at most nine times
    the length of the FEN string, so well inside the integers a [double]
    holds exactly. *)
Theorem material_count_is_bounded (fen : string) :
  exists m : Z,
    count_material fen = inject_Z m /\
    - 9 * Z.of_nat (String.length fen) <= m
    <= 9 * Z.of_nat (String.length fen).
Proof.
  exists (material_difference (board_part fen)).
  split; [apply count_material_is_material_difference|].
  pose proof (material_difference_bound (board_part fen)).
  pose proof (board_part_length_le fen). lia.
Qed.

End Scores.

(** X15: a query after [stockfish_cleanup] initialises the engine again
    with the defaults: whatever skill level was stored before the cleanup,
    the move is e2e4, the score is the material count, and the engine ends
    initialised with the three default options and an untouched
    generator. *)
Theorem query_after_cleanup_uses_defaults {R : RandomSource}
  fen depth time (st : engine R) :
  stockfish_get_best_move fen depth time (stockfish_cleanup st)
  = ("e2e4",
     {| engine_initialized := true;
        engine_options := default_options_map;
        rng := rng st |}) /\
  stockfish_evaluate_position fen (stockfish_cleanup st)
  = (count_material fen,
     {| engine_initialized := true;
        engine_options := default_options_map;
        rng := rng st |}).
Proof.
  by destruct (first_call_results fen depth time (stockfish_cleanup st) eq_refl)
    as [-> ->].
Qed.

(** ** Concrete runs of the further properties *)

Lemma set_option_commutes_witness :
  stockfish_set_option "Threads" "4"
    (stockfish_set_option "Hash" "64" ready_engine)
  = stockfish_set_option "Hash" "64"
      (stockfish_set_option "Threads" "4" ready_engine).
Proof.
  apply (set_option_commutes "Threads" "Hash" "4" "64" ready_engine).
  discriminate.
Defined.

Lemma other_options_are_ignored_witness :
  fst (stockfish_get_best_move start_fen 6 2
         (stockfish_set_option "Threads" "8" (engine_with_skill "3" 5)))
  = fst (stockfish_get_best_move start_fen 6 2 (engine_with_skill "3" 5)).
Proof.
  apply (other_options_are_ignored "Threads" "8" start_fen 6 2
           (engine_with_skill "3" 5)).
  discriminate.
Defined.

Lemma best_move_fixed_above_skill_five_witness :
  fst (stockfish_get_best_move pinned_knight_fen 4 1 (engine_with_skill "8" 3))
  = "e2e4".
Proof.
  apply (best_move_fixed_above_skill_five pinned_knight_fen 4 1
           (engine_with_skill "8" 3) 8).
  - reflexivity.
  - lia.
Defined.

Lemma select_best_move_returns_member_witness :
  exists m,
    fst (select_best_move ["a2a3"; "h7h5"] start_fen (engine_with_skill "2" 1))
    = Returns m /\ In m ["a2a3"; "h7h5"].
Proof.
  apply (select_best_move_returns_member ["a2a3"; "h7h5"] start_fen
           (engine_with_skill "2" 1) 2).
  - discriminate.
  - reflexivity.
Defined.

Lemma medium_skill_prefers_center_witness :
  (is_center_move "e7e5" = true /\ In "e7e5" ["a2a3"; "e7e5"; "d2d4"]) \/
  (head ["a2a3"; "e7e5"; "d2d4"] = Some "e7e5" /\
   forall c, In c ["a2a3"; "e7e5"; "d2d4"] -> is_center_move c = false).
Proof.
  apply (medium_skill_prefers_center ["a2a3"; "e7e5"; "d2d4"] start_fen
           (engine_with_skill "8" 1) 8 "e7e5").
  - reflexivity.
  - lia.
  - reflexivity.
  - discriminate.
Defined.

Lemma missing_skill_level_throws_witness :
  evaluate_position_simple start_fen fresh_engine
  = (Throws invalid_argument,
     set_options fresh_engine
       (<["Skill Level" := ""]> (engine_options fresh_engine))).
Proof.
  apply (missing_skill_level_throws "e2e4" [] start_fen fresh_engine).
  reflexivity.
Defined.

Lemma unparsable_skill_is_swallowed_witness :
  stockfish_get_best_move start_fen 3 1 (engine_with_skill "max" 1)
  = ("", engine_with_skill "max" 1) /\
  stockfish_evaluate_position start_fen (engine_with_skill "max" 1)
  = (0%Q, engine_with_skill "max" 1).
Proof.
  apply (unparsable_skill_is_swallowed start_fen 3 1
           (engine_with_skill "max" 1) "max" invalid_argument).
  - reflexivity.
  - reflexivity.
  - reflexivity.
Defined.


Lemma evaluation_reads_board_field_only_witness :
  count_material ("8/8/8/8/8/8/8/QQ6" ++ String " " "b KQkq - 0 1")
  = inject_Z (material_difference "8/8/8/8/8/8/8/QQ6") /\
  stockfish_evaluate_position
    ("8/8/8/8/8/8/8/QQ6" ++ String " " "b KQkq - 0 1") fresh_engine
  = stockfish_evaluate_position "8/8/8/8/8/8/8/QQ6" fresh_engine.
Proof.
  apply (evaluation_reads_board_field_only "8/8/8/8/8/8/8/QQ6"
           "b KQkq - 0 1" fresh_engine).
  reflexivity.
Defined.
